(** * Slippage estimation over a limit order book

    A shallow embedding of [slippage_analysis.py]: the level-walking
    estimator [compute_slippage], the model function [power_model] and the
    per-ticker driver [analyze_slippage].

    Numbers.  The program computes on IEEE doubles (and NumPy integers for
    the order sizes).  The estimator is embedded twice.  [walk] and
    [compute_slippage] are the loop in exact arithmetic: every finite number
    is a rational ([Q]) and no operation rounds; equality of computed
    numbers is [Qeq] ([==]).  [walk_fl] and [compute_slippage64] are the
    loop on a float64 frame: the same rationals, each arithmetic operation
    followed by the rounding of binary64, [round64]; [compute_slippage_hw]
    is the loop once more on the machine's own floats, against which the
    rounded loop is checked where it is evaluated.  The one non-finite
    value the program produces on purpose, [np.nan], is a constructor of
    its own. *)

From Stdlib Require Import PeanoNat ZArith QArith Qminmax Qabs Qpower Lqa Lia.
From Stdlib Require Import List String Sorted Floats.
From Stdlib Require Qcanon.
Import ListNotations.

Local Open Scope Q_scope.

Set Warnings "-inexact-float".

(** ** Data model *)

(** One row of the frame handed to [compute_slippage]: the columns
    [ask_price_1] and [ask_volume_1]. *)
Record level : Type := mkLevel {
  ask_price_1 : Q;
  ask_volume_1 : Q
}.

Definition order_book : Type := list level.

(** A Python float as the estimator returns it: a number, or [np.nan]. *)
Inductive pyfloat : Type :=
| Num (q : Q)
| NaN.

(** The exceptions the modelled code can raise. *)
Inductive exn : Type :=
| ZeroDivisionError
| IndexError
| SolverError (msg : string).

(** A computation that returns a value or raises. *)
Definition result (A : Type) : Type := (exn + A)%type.

Definition ret {A : Type} (a : A) : result A := inr a.
Definition raise {A : Type} (e : exn) : result A := inl e.
Definition bind {A B : Type} (m : result A) (k : A -> result B) : result B :=
  match m with
  | inl e => inl e
  | inr a => k a
  end.

Notation "x <- m ;; k" := (bind m (fun x => k))
  (at level 61, m at next level, right associativity).

(** ** Comparisons and [min] as Python evaluates them *)

Definition Qle_lt_dec (a b : Q) : {a <= b} + {b < a} :=
  match Qlt_le_dec b a with
  | left H => right H
  | right H => left H
  end.

(** [min(a, b)] keeps its first argument unless the second is strictly
    smaller. *)
Definition py_min (a b : Q) : Q :=
  if Qlt_le_dec b a then b else a.

(** [np.isnan]. *)
Definition isnan (y : pyfloat) : bool :=
  match y with
  | NaN => true
  | Num _ => false
  end.

(** ** The estimator *)

(** The [for] loop of [compute_slippage], on the pair of its two local
    variables [(total_cost, remaining)].  The [break] is the first branch
    of the conditional. *)
Fixpoint walk (rows : order_book) (total_cost remaining : Q) : Q * Q :=
  match rows with
  | [] => (total_cost, remaining)
  | row :: rows' =>
      let price := ask_price_1 row in
      let volume := ask_volume_1 row in
      let qty := py_min remaining volume in
      let total_cost := total_cost + qty * price in
      let remaining := remaining - qty in
      if Qle_lt_dec remaining 0 then (total_cost, remaining)
      else walk rows' total_cost remaining
  end.

(** [total_cost / x]: division of Python numbers raises on a zero divisor
    (NumPy scalars would give [inf] or [nan] with a warning instead; the
    size grid of the analysis never contains zero). *)
Definition py_div (a b : Q) : result Q :=
  if Qeq_dec b 0 then raise ZeroDivisionError else ret (a / b).

(** What follows the loop: the unfilled test, the average and the
    difference from the mid-price. *)
Definition after_loop (st : Q * Q) (x mid_price : Q) : result pyfloat :=
  let '(total_cost, remaining) := st in
  if Qlt_le_dec 0 remaining then ret NaN
  else
    avg_price <- py_div total_cost x ;;
    ret (Num (avg_price - mid_price)).

Definition compute_slippage (book : order_book) (x mid_price : Q)
  : result pyfloat :=
  after_loop (walk book 0 x) x mid_price.

(** The successive values of [qty], one per level the loop visits. *)
Fixpoint qtys (rows : order_book) (remaining : Q) : list Q :=
  match rows with
  | [] => []
  | row :: rows' =>
      let qty := py_min remaining (ask_volume_1 row) in
      let remaining := remaining - qty in
      qty :: (if Qle_lt_dec remaining 0 then [] else qtys rows' remaining)
  end.

(** ** Snapshots *)

(** The input contract of the estimator: every level has a positive price
    and a non-negative volume. *)
Definition level_ok (l : level) : Prop :=
  0 < ask_price_1 l /\ 0 <= ask_volume_1 l.

Definition snapshot (book : order_book) : Prop := Forall level_ok book.

Definition nonneg_volumes (book : order_book) : Prop :=
  Forall (fun l => 0 <= ask_volume_1 l) book.

Definition total_volume (book : order_book) : Q :=
  fold_right (fun l acc => ask_volume_1 l + acc) 0 book.

(** Best-to-worst asks: prices ascend along the sequence. *)
Definition ascending (book : order_book) : Prop :=
  Sorted (fun a b => ask_price_1 a <= ask_price_1 b) book.

(** A level put in front of position [i] (at the end when [i] is past it). *)
Definition insert_at (i : nat) (z : level) (book : order_book) : order_book :=
  firstn i book ++ z :: skipn i book.

(** ** Equality of results as numbers *)

Definition pair_eq (a b : Q * Q) : Prop :=
  fst a == fst b /\ snd a == snd b.

Definition pyfloat_eq (a b : pyfloat) : Prop :=
  match a, b with
  | Num p, Num q => p == q
  | NaN, NaN => True
  | _, _ => False
  end.

Definition result_eq (a b : result pyfloat) : Prop :=
  match a, b with
  | inl e, inl e' => e = e'
  | inr u, inr v => pyfloat_eq u v
  | _, _ => False
  end.

(** ** The brute-force reference of the specification *)

(** The fills [fill_i = min(remaining, volume_i)], taken greedily over the
    whole sequence, with the mathematical minimum. *)
Fixpoint greedy_fills (book : order_book) (remaining : Q) : list Q :=
  match book with
  | [] => []
  | l :: ls =>
      let fill := Qmin remaining (ask_volume_1 l) in
      fill :: greedy_fills ls (remaining - fill)
  end.

Definition Qsum (l : list Q) : Q := fold_right Qplus 0 l.

(** [sum fill_i * price_i]. *)
Definition fill_cost (fills : list Q) (book : order_book) : Q :=
  Qsum (map (fun fl => fst fl * ask_price_1 (snd fl)) (combine fills book)).

Definition brute_force_cost (book : order_book) (x : Q) : Q :=
  fill_cost (greedy_fills book x) book.

Definition brute_force_slippage (book : order_book) (x mid_price : Q) : Q :=
  brute_force_cost book x / x - mid_price.

(** ** The loop without its [break] *)

(** One iteration of the loop body, lines 18 to 22. *)
Definition step (st : Q * Q) (row : level) : Q * Q :=
  let '(total_cost, remaining) := st in
  let qty := py_min remaining (ask_volume_1 row) in
  (total_cost + qty * ask_price_1 row, remaining - qty).

(** The same fold carried to the end of the level sequence. *)
Definition walk_to_end (rows : order_book) (total_cost remaining : Q) : Q * Q :=
  fold_left step rows (total_cost, remaining).

Definition compute_slippage_no_break (book : order_book) (x mid_price : Q)
  : result pyfloat :=
  after_loop (walk_to_end book 0 x) x mid_price.

(** ** The spec's example book *)

Definition example_book : order_book :=
  [ mkLevel (2001 # 20) 50; mkLevel (1001 # 10) 100 ].

(** ** The per-ticker analysis *)

(** One row of the frame [df] once its twenty columns are named.  Of these
    the analysis reads three. *)
Record lob_row : Type := mkRow {
  df_ask_price_1 : Q;
  df_ask_volume_1 : Q;
  df_bid_price_1 : Q
}.

(** [df[['ask_price_1', 'ask_volume_1']].copy()] *)
Definition best_ask (df : list lob_row) : order_book :=
  map (fun r => mkLevel (df_ask_price_1 r) (df_ask_volume_1 r)) df.

(** [np.arange(10, 300, 10)] *)
Definition X : list Q :=
  map (fun k => inject_Z (10 * Z.of_nat k)) (seq 1 29).

(** What the analysis shows to the outside. *)
Inductive event : Type :=
| Plot (xs : list Q) (ys : list pyfloat)
| Print (msg : string)
| PrintFit (ticker : string) (alpha delta : Q)
| PlotFit (xs : list Q) (alpha delta : Q)
| Savefig (path : string)
| ShowFigure.

(** A list comprehension whose body may raise. *)
Fixpoint traverse {A B : Type} (f : A -> result B) (l : list A)
  : result (list B) :=
  match l with
  | [] => ret []
  | a :: l' =>
      b <- f a ;;
      bs <- traverse f l' ;;
      ret (b :: bs)
  end.

(** Boolean-mask indexing, [a[mask]]. *)
Fixpoint select {A : Type} (mask : list bool) (a : list A) : list A :=
  match mask, a with
  | m :: mask', v :: a' => if m then v :: select mask' a' else select mask' a'
  | _, _ => []
  end.

(** [Y] of the analysis: the estimator swept over the size grid. *)
Definition sweep (book : order_book) (mid_price : Q) : result (list pyfloat) :=
  traverse (fun x => compute_slippage book x mid_price) X.

(** [Y_fit]: the samples that survive the NaN mask. *)
Definition valid_samples (Y : list pyfloat) : list pyfloat :=
  select (map (fun y => negb (isnan y)) Y) Y.

Section Analysis.

(** [curve_fit(power_model, X_fit, Y_fit)], SciPy's least-squares solver
    for the model [alpha * x**delta]: it returns the fitted pair or
    raises.  The solver is a library routine on doubles and the model a
    power with a real exponent; neither has a rational counterpart, so the
    analysis takes the solver as given. *)
Variable curve_fit : list Q -> list pyfloat -> result (Q * Q).

(** The body of [analyze_slippage] from the frame on: the events it
    produces, and whether it returns or raises. *)
Definition analyze_slippage (ticker : string) (df : list lob_row)
  : list event * result unit :=
  let order_book := best_ask df in
  match df with
  | [] => ([], raise IndexError)
  | first :: _ =>
      let mid_price := (df_ask_price_1 first + df_bid_price_1 first) / 2 in
      match sweep order_book mid_price with
      | inl e => ([], raise e)
      | inr Y =>
          let mask := map (fun y => negb (isnan y)) Y in
          let X_fit := select mask X in
          let Y_fit := select mask Y in
          if Nat.ltb (List.length Y_fit) 3 then
            ([Plot X Y;
              Print (append ticker ": Not enough data points for fitting.")],
             ret tt)
          else
            match curve_fit X_fit Y_fit with
            | inl e => ([Plot X Y], raise e)
            | inr (alpha, delta) =>
                let output_path := append ticker "_slippage_fit.png" in
                ([Plot X Y;
                  PrintFit ticker alpha delta;
                  PlotFit X_fit alpha delta;
                  Savefig output_path;
                  Print (append "Saved plot: " output_path);
                  ShowFigure],
                 ret tt)
            end
      end
  end.

End Analysis.

(** A solver that never converges. *)
Definition diverging_fit (_ : list Q) (_ : list pyfloat) : result (Q * Q) :=
  raise (SolverError "Optimal parameters not found").

(** A book outside the input contract: its second volume is negative. *)
Definition negative_volume_book : order_book :=
  [ mkLevel 10 20; mkLevel 11 (-5) ].

(** A frame with a single row of fifteen shares at the best ask. *)
Definition thin_frame : list lob_row :=
  [ mkRow (2001 # 20) 15 (1999 # 20) ].

(** ** The driver *)

(** [tickers] of the main block. *)
Definition tickers : list string := ["AMZN"; "MSFT"; "GOOG"]%string.

(** [f"data/{ticker}_lob.csv"] *)
Definition data_path (ticker : string) : string :=
  append "data/" (append ticker "_lob.csv").

Section Driver.

(** [os.path.exists]. *)
Variable path_exists : string -> bool.

(** [pd.read_csv(path, header=None)] followed by the naming of the twenty
    columns: the frame, or the failure of either step. *)
Variable read_csv : string -> result (list lob_row).

Variable curve_fit : list Q -> list pyfloat -> result (Q * Q).

(** [analyze_slippage(ticker)] from its first line: load, then analyse. *)
Definition analyze_ticker (ticker : string) : list event * result unit :=
  match read_csv (data_path ticker) with
  | inl e => ([], raise e)
  | inr df => analyze_slippage curve_fit ticker df
  end.

(** The [for ticker in tickers] loop.  Nothing catches a failure of
    [analyze_slippage]: it ends the loop. *)
Fixpoint run_tickers (ts : list string) : list event * result unit :=
  match ts with
  | [] => ([], ret tt)
  | ticker :: ts' =>
      let file_path := data_path ticker in
      if negb (path_exists file_path) then
        let '(events, r) := run_tickers ts' in
        (Print (append "Missing data file: " file_path) :: events, r)
      else
        match analyze_ticker ticker with
        | (events, inl e) => (events, raise e)
        | (events, inr _) =>
            let '(events', r) := run_tickers ts' in
            (events ++ events', r)
        end
  end.

Definition main : list event * result unit := run_tickers tickers.

End Driver.

(** A frame with a single row of two hundred shares at the best ask. *)
Definition deep_frame : list lob_row :=
  [ mkRow (2001 # 20) 200 (1999 # 20) ].

(** A file system in which only the first ticker's file is missing. *)
Definition amzn_missing (path : string) : bool :=
  negb (String.eqb path "data/AMZN_lob.csv").

(** A reader under which every file holds the deep frame. *)
Definition read_deep (_ : string) : result (list lob_row) :=
  ret deep_frame.

(** A file system with no files. *)
Definition no_files (_ : string) : bool := false.

(** ** Binary64 arithmetic *)

(** [2^s] as a rational, for any integer [s]. *)
Definition pow2 (s : Z) : Q := 2 ^ s.

(** The integer nearest to [num / den], ties to the even one ([0 < den]). *)
Definition nearest_even (num den : Z) : Z :=
  let m := (num / den)%Z in
  let r := (num mod den)%Z in
  match (2 * r ?= den)%Z with
  | Lt => m
  | Gt => (m + 1)%Z
  | Eq => if Z.even m then m else (m + 1)%Z
  end.

(** The binary exponent of [n / d], the integer [e] with
    [2^e <= n/d < 2^(e+1)] ([0 < n], [0 < d]). *)
Definition binade (n d : Z) : Z :=
  if (d <=? n)%Z then Z.log2 (n / d)
  else (- Z.log2_up ((d + n - 1) / n))%Z.

(** The integer nearest to [(n / d) / 2^s], ties to even. *)
Definition scaled_nearest (n d s : Z) : Z :=
  if (0 <=? s)%Z then nearest_even n (d * 2 ^ s)
  else nearest_even (n * 2 ^ (- s)) d.

(** Rounding to the nearest binary64 value, ties to even: 53 significant
    bits, least exponent -1074 (subnormals included).  The exponent range
    is not bounded above: a result beyond the largest double is kept
    where the hardware gives an infinity. *)
Definition round64 (q : Q) : Q :=
  let q := Qred q in
  let n := Z.abs (Qnum q) in
  let d := Z.pos (Qden q) in
  if (n =? 0)%Z then 0
  else
    let s := Z.max (binade n d - 52) (-1074) in
    inject_Z (Z.sgn (Qnum q) * scaled_nearest n d s) * pow2 s.

(** The unit roundoff of binary64 and half its least positive value. *)
Definition unit_roundoff : Q := pow2 (-53).
Definition least_step : Q := pow2 (-1075).

(** ** The estimator on float64 *)

(** What [compute_slippage] returns on a float64 frame. *)
Inductive float64 : Type :=
| Finite (q : Q)
| Infinite (negative : bool)
| NotANumber.

Section Rounded.

(** The rounding every arithmetic operation ends with: [round64] for the
    program as it runs, the identity for the same program in exact
    arithmetic. *)
Variable rnd : Q -> Q.

(** The loop of [compute_slippage] on float64 rows: [min] and the
    comparisons are exact, [*], [+] and [-] round. *)
Fixpoint walk_fl (rows : order_book) (total_cost remaining : Q) : Q * Q :=
  match rows with
  | [] => (total_cost, remaining)
  | row :: rows' =>
      let price := ask_price_1 row in
      let volume := ask_volume_1 row in
      let qty := py_min remaining volume in
      let total_cost := rnd (total_cost + rnd (qty * price)) in
      let remaining := rnd (remaining - qty) in
      if Qle_lt_dec remaining 0 then (total_cost, remaining)
      else walk_fl rows' total_cost remaining
  end.

(** Lines 27 to 32.  On the NumPy scalars of a float64 frame a division
    by zero does not raise: [0/0] is nan and [c/0] an infinity of the sign
    of [c], which the subtraction of [mid_price] keeps. *)
Definition after_loop_fl (st : Q * Q) (x mid_price : Q) : float64 :=
  let '(total_cost, remaining) := st in
  if Qlt_le_dec 0 remaining then NotANumber
  else if Qeq_dec x 0 then
    if Qeq_dec total_cost 0 then NotANumber
    else Infinite (if Qlt_le_dec total_cost 0 then true else false)
  else Finite (rnd (rnd (total_cost / x) - mid_price)).

Definition compute_slippage_fl (book : order_book) (x mid_price : Q)
  : float64 :=
  after_loop_fl (walk_fl book 0 x) x mid_price.

End Rounded.

(** The program as it runs on binary64. *)
Definition compute_slippage64 : order_book -> Q -> Q -> float64 :=
  compute_slippage_fl round64.

(** Equality of float64 results as numbers. *)
Definition float64_eq (a b : float64) : Prop :=
  match a, b with
  | Finite p, Finite q => p == q
  | Infinite s, Infinite t => s = t
  | NotANumber, NotANumber => True
  | _, _ => False
  end.

(** ** The same loop on the machine's binary64 *)

Definition hw_min (a b : float) : float :=
  if (b <? a)%float then b else a.

Fixpoint walk_hw (rows : list (float * float)) (total_cost remaining : float)
  : float * float :=
  match rows with
  | [] => (total_cost, remaining)
  | (price, volume) :: rows' =>
      let qty := hw_min remaining volume in
      let total_cost := (total_cost + qty * price)%float in
      let remaining := (remaining - qty)%float in
      if (remaining <=? 0)%float then (total_cost, remaining)
      else walk_hw rows' total_cost remaining
  end.

Definition compute_slippage_hw (book : list (float * float))
    (x mid_price : float) : float :=
  let '(total_cost, remaining) := walk_hw book 0%float x in
  if (0 <? remaining)%float then nan
  else (total_cost / x - mid_price)%float.

(** The value of a machine float. *)
Definition value_of (f : float) : float64 :=
  match Prim2SF f with
  | S754_zero _ => Finite 0
  | S754_finite s m e =>
      Finite (inject_Z (if s then Z.neg m else Z.pos m) * pow2 e)
  | S754_infinity s => Infinite s
  | S754_nan => NotANumber
  end.

(** A row of machine floats and a level of the model that hold the same
    two numbers. *)
Definition same_level (row : float * float) (l : level) : Prop :=
  float64_eq (value_of (fst row)) (Finite (ask_price_1 l)) /\
  float64_eq (value_of (snd row)) (Finite (ask_volume_1 l)).

(** ** Float64 inputs *)

(** The double a decimal literal denotes. *)
Definition dbl (q : Q) : Q := round64 q.

(** Volumes 0.9, 0.7 and 0.4: as doubles they add up to exactly 2. *)
Definition fractional_book : order_book :=
  [ mkLevel 1 (dbl (9 # 10)); mkLevel 2 (dbl (7 # 10));
    mkLevel 3 (dbl (4 # 10)) ].

Definition fractional_book_hw : list (float * float) :=
  [ (1, 0.9); (2, 0.7); (3, 0.4) ]%float.

(** Volumes 0.2 and 0.7: as doubles they add up to less than the double
    0.9. *)
Definition short_book : order_book :=
  [ mkLevel 1 (dbl (2 # 10)); mkLevel 2 (dbl (7 # 10)) ].

Definition short_book_hw : list (float * float) :=
  [ (1, 0.2); (2, 0.7) ]%float.

(** A single level of a thousand shares at 100.01. *)
Definition one_level_book : order_book :=
  [ mkLevel (dbl (10001 # 100)) 1000 ].




(** ** Share counts and the rounding slack *)

(** A whole number. *)
Definition whole (q : Q) : Prop := exists z : Z, q == inject_Z z.

(** An order size that is a whole number of shares below [2^53]. *)
Definition share_count (x : Q) : Prop :=
  exists z : Z, x == inject_Z z /\ (z < 2 ^ 53)%Z.

(** Every volume of the book is a whole number of shares. *)
Definition whole_volumes (book : order_book) : Prop :=
  Forall (fun l => whole (ask_volume_1 l)) book.

Fixpoint qpow (b : Q) (n : nat) : Q :=
  match n with
  | O => 1
  | S k => b * qpow b k
  end.

Section Slack.

(** The relative and the absolute error of one rounding. *)
Variables u eta : Q.

(** How far the rounded [total_cost] can be from the exact one [t] after
    at most [n] levels. *)
Definition cost_slack (n : nat) (t : Q) : Q :=
  (qpow ((1 + u) * (1 + u)) n - 1) * t
  + (3 * inject_Z (Z.of_nat n)) * qpow ((1 + u) * (1 + u)) n * eta.

(** How far the rounded slippage can be from the exact one, for the exact
    cost [t] of an order [x]. *)
Definition slack (n : nat) (t x mid_price : Q) : Q :=
  (1 + u) * (((1 + u) * cost_slack n t + u * t) / x + eta)
  + u * (t / x + Qabs mid_price) + eta.

End Slack.

(** Magnitudes far enough below the largest double that no operation of
    the loop overflows to an infinity. *)
Definition in_range (q : Q) : Prop := Qabs q <= pow2 900.

Definition no_overflow (book : order_book) (mid_price : Q) : Prop :=
  Forall (fun l => in_range (ask_price_1 l)) book /\
  in_range mid_price /\
  (Z.of_nat (List.length book) < 2 ^ 32)%Z.

(** The slack of binary64 for an order on a book. *)
Definition rounding_slack (book : order_book) (x mid_price : Q) : Q :=
  slack unit_roundoff least_step (List.length book)
        (brute_force_cost book x) x mid_price.

(** The slack of binary64 for a negative order filled at one price: that
    of the mirrored order, [-x] shares at the same price. *)
Definition negative_order_slack (price x mid_price : Q) : Q :=
  slack unit_roundoff least_step 1 (- x * price) (- x) mid_price.

(** * Properties *)

(** ** Comparisons *)

Lemma py_min_le (a b : Q) : a <= b -> py_min a b = a.
Proof.
  intros H. unfold py_min. destruct (Qlt_le_dec b a) as [Hlt|_]; [lra|reflexivity].
Qed.

Lemma py_min_gt (a b : Q) : b < a -> py_min a b = b.
Proof.
  intros H. unfold py_min. destruct (Qlt_le_dec b a) as [_|Hle]; [reflexivity|lra].
Qed.

Lemma py_min_Qmin (a b : Q) : py_min a b == Qmin a b.
Proof.
  destruct (Q.min_spec a b) as [[H E]|[H E]]; rewrite E.
  - rewrite py_min_le by lra. reflexivity.
  - destruct (Qlt_le_dec b a) as [Hlt|Hle].
    + rewrite py_min_gt by assumption. reflexivity.
    + rewrite py_min_le by assumption. lra.
Qed.

Lemma pair_eq_refl (a : Q * Q) : pair_eq a a.
Proof. split; reflexivity. Qed.

Lemma total_volume_nonneg (book : order_book) :
  nonneg_volumes book -> 0 <= total_volume book.
Proof.
  induction 1 as [|l ls Hl _ IH]; simpl; lra.
Qed.

Lemma snapshot_volumes (book : order_book) :
  snapshot book -> nonneg_volumes book.
Proof.
  apply Forall_impl. intros l [_ H]. exact H.
Qed.

(** ** The brute-force cost *)

Lemma brute_force_cost_cons (l : level) (ls : order_book) (x : Q) :
  brute_force_cost (l :: ls) x =
  Qmin x (ask_volume_1 l) * ask_price_1 l
  + brute_force_cost ls (x - Qmin x (ask_volume_1 l)).
Proof. reflexivity. Qed.

(** The bounds on one fill that the later arguments need. *)
Lemma fill_bounds (x v : Q) :
  0 <= x -> 0 <= v ->
  0 <= Qmin x v /\ Qmin x v <= x /\ Qmin x v <= v /\
  (x <= v -> Qmin x v == x) /\ (v <= x -> Qmin x v == v).
Proof.
  intros Hx Hv.
  destruct (Q.min_spec x v) as [[H E]|[H E]]; rewrite E;
    repeat split; intros; lra.
Qed.


Lemma brute_force_cost_proper (book : order_book) :
  forall x y, x == y -> brute_force_cost book x == brute_force_cost book y.
Proof.
  induction book as [|l ls IH]; intros x y E.
  - reflexivity.
  - rewrite !brute_force_cost_cons.
    assert (Em : Qmin x (ask_volume_1 l) == Qmin y (ask_volume_1 l)).
    { destruct (Q.min_spec x (ask_volume_1 l)) as [[? E1]|[? E1]];
      destruct (Q.min_spec y (ask_volume_1 l)) as [[? E2]|[? E2]];
      rewrite E1, E2; lra. }
    rewrite (IH (x - Qmin x (ask_volume_1 l)) (y - Qmin y (ask_volume_1 l)))
      by (rewrite Em, E; reflexivity).
    rewrite Em. reflexivity.
Qed.

Lemma brute_force_cost_zero (book : order_book) :
  nonneg_volumes book -> forall x, x == 0 -> brute_force_cost book x == 0.
Proof.
  induction 1 as [|l ls Hl _ IH]; intros x E.
  - reflexivity.
  - rewrite brute_force_cost_cons.
    destruct (fill_bounds x (ask_volume_1 l)) as (_ & _ & _ & Hm & _); try lra.
    rewrite (IH (x - Qmin x (ask_volume_1 l))) by (rewrite Hm; lra).
    rewrite Hm by lra. rewrite E. ring.
Qed.

(** ** What the loop computes *)

(** Started with a positive [remaining], the loop ends either filled, with
    the brute-force cost added to [total_cost], or short by the missing
    volume. *)
Lemma walk_spec (book : order_book) :
  nonneg_volumes book ->
  forall total_cost remaining,
    0 < remaining ->
    (remaining <= total_volume book ->
       fst (walk book total_cost remaining)
         == total_cost + brute_force_cost book remaining /\
       snd (walk book total_cost remaining) == 0) /\
    (total_volume book < remaining ->
       snd (walk book total_cost remaining) == remaining - total_volume book).
Proof.
  induction 1 as [|l ls Hl Hls IH]; intros tc rem Hrem.
  - simpl. split; intros; lra.
  - pose proof (total_volume_nonneg ls Hls) as Htot.
    destruct (fill_bounds rem (ask_volume_1 l)) as (_ & _ & _ & Hle & Hge);
      try lra.
    simpl walk. simpl total_volume. rewrite brute_force_cost_cons.
    destruct (Qlt_le_dec (ask_volume_1 l) rem) as [Hlt|Hnlt].
    + rewrite py_min_gt by assumption.
      destruct (Qle_lt_dec (rem - ask_volume_1 l) 0) as [Hbrk|Hcont]; [lra|].
      destruct (IH (tc + ask_volume_1 l * ask_price_1 l) (rem - ask_volume_1 l) Hcont)
        as [IHfill IHshort].
      split; intros Hcmp.
      * destruct IHfill as [Hc Hr]; [lra|]. split; [|exact Hr].
        rewrite Hc.
        rewrite (brute_force_cost_proper ls
                   (rem - Qmin rem (ask_volume_1 l)) (rem - ask_volume_1 l))
          by (rewrite Hge by lra; reflexivity).
        rewrite Hge by lra. ring.
      * rewrite IHshort by lra. ring.
    + rewrite py_min_le by assumption.
      destruct (Qle_lt_dec (rem - rem) 0) as [Hbrk|Hcont]; [|lra].
      simpl. split; intros Hcmp; [|lra].
      split; [|ring].
      rewrite (brute_force_cost_zero ls Hls) by (rewrite Hle by lra; ring).
      rewrite Hle by lra. ring.
Qed.

(** ** After the loop *)

Lemma after_loop_filled (tc rem x mid : Q) :
  rem <= 0 -> ~ x == 0 ->
  after_loop (tc, rem) x mid = inr (Num (tc / x - mid)).
Proof.
  intros Hrem Hx. unfold after_loop.
  destruct (Qlt_le_dec 0 rem) as [H|_]; [lra|].
  unfold py_div. destruct (Qeq_dec x 0) as [H|_]; [contradiction|reflexivity].
Qed.

Lemma after_loop_unfilled (tc rem x mid : Q) :
  0 < rem -> after_loop (tc, rem) x mid = inr NaN.
Proof.
  intros Hrem. unfold after_loop.
  destruct (Qlt_le_dec 0 rem) as [_|H]; [reflexivity|lra].
Qed.

Lemma after_loop_proper (st st' : Q * Q) (x mid : Q) :
  pair_eq st st' -> result_eq (after_loop st x mid) (after_loop st' x mid).
Proof.
  destruct st as [tc rem], st' as [tc' rem']. intros [Etc Erem]. simpl in *.
  unfold after_loop.
  destruct (Qlt_le_dec 0 rem), (Qlt_le_dec 0 rem'); try lra; simpl; trivial.
  unfold py_div. destruct (Qeq_dec x 0); simpl; trivial.
  rewrite Etc. reflexivity.
Qed.

Lemma compute_slippage_filled (book : order_book) (x mid : Q) :
  nonneg_volumes book -> 0 < x -> x <= total_volume book ->
  exists s, compute_slippage book x mid = inr (Num s) /\
            s == brute_force_cost book x / x - mid.
Proof.
  intros Hvol Hx Hdepth.
  destruct (walk_spec book Hvol 0 x Hx) as [Hfill _].
  destruct (Hfill Hdepth) as [Hc Hr].
  unfold compute_slippage.
  destruct (walk book 0 x) as [tc rem]. simpl in Hc, Hr.
  rewrite after_loop_filled by lra.
  eexists. split; [reflexivity|].
  rewrite Hc. field. lra.
Qed.

Lemma compute_slippage_short (book : order_book) (x mid : Q) :
  nonneg_volumes book -> 0 < x -> total_volume book < x ->
  compute_slippage book x mid = inr NaN.
Proof.
  intros Hvol Hx Hdepth.
  destruct (walk_spec book Hvol 0 x Hx) as [_ Hshort].
  specialize (Hshort Hdepth).
  unfold compute_slippage.
  destruct (walk book 0 x) as [tc rem]. simpl in Hshort.
  apply after_loop_unfilled. lra.
Qed.

(** ** Convexity of the cost along ascending prices *)



(** ** The loop respects equality of numbers *)

Lemma walk_proper (book : order_book) :
  forall tc tc' rem rem',
    tc == tc' -> rem == rem' ->
    pair_eq (walk book tc rem) (walk book tc' rem').
Proof.
  induction book as [|l ls IH]; intros tc tc' rem rem' Etc Erem.
  - split; assumption.
  - simpl. unfold py_min.
    destruct (Qlt_le_dec (ask_volume_1 l) rem) as [Hv|Hv];
      destruct (Qlt_le_dec (ask_volume_1 l) rem') as [Hv'|Hv']; try lra.
    + destruct (Qle_lt_dec (rem - ask_volume_1 l) 0) as [Hb|Hb];
        destruct (Qle_lt_dec (rem' - ask_volume_1 l) 0) as [Hb'|Hb']; try lra.
      apply IH; rewrite ?Etc, ?Erem; reflexivity.
    + destruct (Qle_lt_dec (rem - rem) 0) as [Hb|Hb];
        destruct (Qle_lt_dec (rem' - rem') 0) as [Hb'|Hb']; try lra.
      split; simpl; rewrite ?Etc, ?Erem; reflexivity.
Qed.

(** ** The [break] *)

(** Once a non-empty prefix of the book has brought [remaining] down to
    zero or below, the levels after it are never read. *)
Lemma walk_prefix (pre rest : order_book) :
  forall tc rem,
    pre <> [] ->
    snd (walk pre tc rem) <= 0 ->
    walk (pre ++ rest) tc rem = walk pre tc rem.
Proof.
  induction pre as [|l ls IH]; intros tc rem Hne Hdone.
  - contradiction.
  - simpl in *.
    destruct (Qle_lt_dec (rem - py_min rem (ask_volume_1 l)) 0) as [Hb|Hb].
    + reflexivity.
    + destruct ls as [|l' ls'].
      * simpl in Hdone. lra.
      * apply IH; [discriminate|exact Hdone].
Qed.

(** With non-negative volumes, a loop that has reached [remaining == 0]
    and is carried on changes neither variable. *)
Lemma walk_to_end_done (book : order_book) :
  nonneg_volumes book ->
  forall tc rem, rem == 0 -> pair_eq (walk_to_end book tc rem) (tc, rem).
Proof.
  unfold walk_to_end.
  induction 1 as [|l ls Hl _ IH]; intros tc rem Erem.
  - apply pair_eq_refl.
  - simpl. rewrite py_min_le by lra.
    destruct (IH (tc + rem * ask_price_1 l) (rem - rem)) as [Hc Hr]; [ring|].
    simpl in *. split; simpl.
    + rewrite Hc, Erem. lra.
    + rewrite Hr. lra.
Qed.

(** The early-terminating loop and the full fold agree. *)
Lemma walk_walk_to_end (book : order_book) :
  nonneg_volumes book ->
  forall tc rem, 0 < rem ->
    pair_eq (walk book tc rem) (walk_to_end book tc rem).
Proof.
  induction 1 as [|l ls Hl Hls IH]; intros tc rem Hrem.
  - apply pair_eq_refl.
  - unfold walk_to_end. simpl.
    fold (walk_to_end ls (tc + py_min rem (ask_volume_1 l) * ask_price_1 l)
                         (rem - py_min rem (ask_volume_1 l))).
    destruct (Qle_lt_dec (rem - py_min rem (ask_volume_1 l)) 0) as [Hb|Hb].
    + assert (E : rem - py_min rem (ask_volume_1 l) == 0).
      { unfold py_min in *.
        destruct (Qlt_le_dec (ask_volume_1 l) rem); lra. }
      destruct (walk_to_end_done ls Hls
                  (tc + py_min rem (ask_volume_1 l) * ask_price_1 l) _ E)
        as [Hc Hr].
      split; simpl in *; symmetry; assumption.
    + apply IH. exact Hb.
Qed.

(** ** A zero-volume level *)

Lemma walk_insert_zero (z : level) :
  ask_volume_1 z == 0 ->
  forall i book tc rem,
    0 < rem ->
    pair_eq (walk (insert_at i z book) tc rem) (walk book tc rem).
Proof.
  intros Hz.
  assert (Hhead : forall book tc rem, 0 < rem ->
            pair_eq (walk (z :: book) tc rem) (walk book tc rem)).
  { intros book tc rem Hrem. simpl.
    rewrite py_min_gt by lra.
    destruct (Qle_lt_dec (rem - ask_volume_1 z) 0) as [Hb|Hb]; [lra|].
    apply walk_proper; rewrite Hz; ring. }
  induction i as [|i IH]; intros book tc rem Hrem.
  - apply Hhead. exact Hrem.
  - destruct book as [|l ls].
    + apply Hhead. exact Hrem.
    + unfold insert_at. simpl.
      destruct (Qle_lt_dec (rem - py_min rem (ask_volume_1 l)) 0) as [Hb|Hb].
      * apply pair_eq_refl.
      * apply IH. exact Hb.
Qed.

Lemma qtys_prefix (pre rest : order_book) :
  forall tc rem,
    pre <> [] ->
    snd (walk pre tc rem) <= 0 ->
    qtys (pre ++ rest) rem = qtys pre rem.
Proof.
  induction pre as [|l ls IH]; intros tc rem Hne Hdone.
  - contradiction.
  - simpl in *.
    destruct (Qle_lt_dec (rem - py_min rem (ask_volume_1 l)) 0) as [Hb|Hb].
    + reflexivity.
    + f_equal. destruct ls as [|l' ls'].
      * simpl in Hdone. lra.
      * eapply IH; [discriminate|exact Hdone].
Qed.

(** A numeric result means the loop ended with nothing remaining. *)
Lemma compute_slippage_num_inv (book : order_book) (x mid s : Q) :
  compute_slippage book x mid = inr (Num s) -> snd (walk book 0 x) <= 0.
Proof.
  unfold compute_slippage, after_loop.
  destruct (walk book 0 x) as [tc rem]. simpl.
  destruct (Qlt_le_dec 0 rem) as [H|H]; [discriminate|intros _; exact H].
Qed.

(** * The claims *)

(** ** Unfilled orders *)

(** C10.  On the empty level sequence and a positive order size the loop
    makes no iteration, [remaining] keeps the order size, and the result
    is the NaN sentinel, not a failure. *)
Theorem compute_slippage_empty_book (x mid_price : Q) :
  0 < x ->
  qtys [] x = [] /\
  walk [] 0 x = (0, x) /\
  compute_slippage [] x mid_price = inr NaN.
Proof.
  intros Hx. repeat split.
  unfold compute_slippage. simpl walk. apply after_loop_unfilled. exact Hx.
Qed.

(** ** The short-circuit *)

(** C5.  On a snapshot and a positive order size the loop with its [break]
    returns the same result as the fold carried to the end of the level
    sequence; and once a book has satisfied the order, the loop reads
    nothing after it: any levels appended to the book leave the visited
    fills, the loop variables and the result as they were. *)
Theorem break_is_an_optimisation
    (book rest : order_book) (x mid_price : Q) :
  snapshot book -> 0 < x ->
  result_eq (compute_slippage book x mid_price)
            (compute_slippage_no_break book x mid_price) /\
  (forall s,
      compute_slippage book x mid_price = inr (Num s) ->
      qtys (book ++ rest) x = qtys book x /\
      walk (book ++ rest) 0 x = walk book 0 x /\
      compute_slippage (book ++ rest) x mid_price = inr (Num s)).
Proof.
  intros Hbook Hx. split.
  - apply after_loop_proper.
    apply walk_walk_to_end; auto using snapshot_volumes.
  - intros s Hs.
    pose proof (compute_slippage_num_inv book x mid_price s Hs) as Hdone.
    assert (Hne : book <> []).
    { intros ->. simpl in Hdone. lra. }
    pose proof (walk_prefix book rest 0 x Hne Hdone) as Hw.
    split; [exact (qtys_prefix book rest 0 x Hne Hdone)|].
    split; [exact Hw|].
    unfold compute_slippage in *. rewrite Hw. exact Hs.
Qed.

(** The contract on volumes is needed: after a negative volume the fold
    carried to the end takes the order back. *)
Remark break_matters_for_negative_volumes :
  result_eq (compute_slippage negative_volume_book 10 100)
            (inr (Num (-90))) /\
  compute_slippage_no_break negative_volume_book 10 100 = inr NaN.
Proof. split; vm_compute; reflexivity. Qed.

(** ** Zero-volume levels *)

(** C7.  A level of volume zero, of any price, put at any position of any
    level sequence takes a zero fill from a positive [remaining] and leaves
    the result of [compute_slippage] unchanged, for every positive order
    size. *)
Theorem zero_volume_level_is_skipped
    (z : level) (i : nat) (book : order_book) (x mid_price : Q) :
  ask_volume_1 z == 0 -> 0 < x ->
  (forall remaining, 0 < remaining ->
     py_min remaining (ask_volume_1 z) == 0) /\
  result_eq (compute_slippage (insert_at i z book) x mid_price)
            (compute_slippage book x mid_price).
Proof.
  intros Hz Hx. split.
  - intros rem Hrem. rewrite py_min_gt by lra. exact Hz.
  - apply after_loop_proper. apply walk_insert_zero; assumption.
Qed.

(** ** The worked example *)

(** C6, as the spec states it, fails: the slippage of the example is not
    0.0808 to the four decimals given. *)
Lemma example_slippage_is_not_0_0808 :
  ~ (exists s,
        compute_slippage example_book 120 100 = inr (Num s) /\
        s == (50 * (2001 # 20) + 70 * (1001 # 10)) / 120 - 100 /\
        8075 # 100000 <= s /\ s < 8085 # 100000).
Proof.
  intros (s & Hs & _ & Hlo & _).
  vm_compute in Hs. injection Hs as <-.
  revert Hlo. vm_compute. intros H. apply H. reflexivity.
Qed.

(** C6, amended.  For the example book, mid-price 100 and order size 120,
    [compute_slippage] fills 50 at 100.05 and 70 at 100.10; the result is
    [(50*100.05 + 70*100.10)/120 - 100], which is 19/240, 0.0792 to four
    decimals. *)
Theorem example_slippage :
  qtys example_book 120 = [50; 70] /\
  exists s,
    compute_slippage example_book 120 100 = inr (Num s) /\
    s == (50 * (2001 # 20) + 70 * (1001 # 10)) / 120 - 100 /\
    s == 19 # 240 /\
    7915 # 100000 <= s /\ s < 7925 # 100000.
Proof.
  split; [reflexivity|].
  eexists. split; [vm_compute; reflexivity|].
  repeat split; vm_compute; try reflexivity; discriminate.
Qed.

(** ** The sample-count guard *)

(** C3, as the spec states it, fails: with one valid sample and a solver
    that would raise, the analysis returns normally. *)
Lemma few_samples_do_not_raise :
  exists Y,
    sweep (best_ask thin_frame) 100 = inr Y /\
    (List.length (valid_samples Y) < 3)%nat /\
    snd (analyze_slippage diverging_fit "AMZN" thin_frame) = inr tt /\
    ~ (exists e, snd (analyze_slippage diverging_fit "AMZN" thin_frame)
                 = inl e).
Proof.
  eexists. split; [vm_compute; reflexivity|].
  split; [vm_compute; lia|].
  split; [vm_compute; reflexivity|].
  intros [e He]. vm_compute in He. discriminate.
Qed.

(** C3, amended.  When the sweep over a non-empty frame leaves fewer than
    three valid samples, [analyze_slippage] plots the samples, prints
    "<ticker>: Not enough data points for fitting." and returns normally;
    the solver is not called, whatever it is, so no fit is reported and no
    failure reaches the caller. *)
Theorem few_samples_print_and_return
    (curve_fit : list Q -> list pyfloat -> result (Q * Q))
    (ticker : string) (first : lob_row) (rows : list lob_row)
    (Y : list pyfloat) :
  sweep (best_ask (first :: rows))
        ((df_ask_price_1 first + df_bid_price_1 first) / 2) = inr Y ->
  (List.length (valid_samples Y) < 3)%nat ->
  analyze_slippage curve_fit ticker (first :: rows) =
  ([Plot X Y; Print (append ticker ": Not enough data points for fitting.")],
   inr tt).
Proof.
  intros HY Hfew. unfold analyze_slippage. rewrite HY.
  fold (valid_samples Y).
  apply Nat.ltb_lt in Hfew. rewrite Hfew. reflexivity.
Qed.

(** ** The claims at concrete inputs *)

Lemma example_book_snapshot : snapshot example_book.
Proof. repeat (constructor; [split; simpl; lra|]). constructor. Defined.

Lemma example_book_ascending : ascending example_book.
Proof.
  unfold ascending, example_book.
  repeat (constructor; simpl; try lra).
Defined.

Lemma compute_slippage_empty_book_witness :
  0 < 10 /\ compute_slippage [] 10 100 = inr NaN.
Proof.
  assert (Hx : 0 < 10) by reflexivity.
  split; [exact Hx|].
  exact (proj2 (proj2 (compute_slippage_empty_book 10 100 Hx))).
Defined.

Lemma break_is_an_optimisation_witness :
  snapshot example_book /\ 0 < 120 /\
  result_eq (compute_slippage example_book 120 100)
            (compute_slippage_no_break example_book 120 100) /\
  (forall s,
      compute_slippage example_book 120 100 = inr (Num s) ->
      qtys (example_book ++ [mkLevel 1 (-5)]) 120 = qtys example_book 120 /\
      walk (example_book ++ [mkLevel 1 (-5)]) 0 120 = walk example_book 0 120 /\
      compute_slippage (example_book ++ [mkLevel 1 (-5)]) 120 100
        = inr (Num s)).
Proof.
  assert (Hx : 0 < 120) by reflexivity.
  split; [exact example_book_snapshot|]. split; [exact Hx|].
  exact (break_is_an_optimisation example_book [mkLevel 1 (-5)] 120 100
           example_book_snapshot Hx).
Defined.

Lemma zero_volume_level_is_skipped_witness :
  ask_volume_1 (mkLevel 7 0) == 0 /\ 0 < 120 /\
  result_eq (compute_slippage (insert_at 1 (mkLevel 7 0) example_book) 120 100)
            (compute_slippage example_book 120 100).
Proof.
  assert (Hz : ask_volume_1 (mkLevel 7 0) == 0) by reflexivity.
  assert (Hx : 0 < 120) by reflexivity.
  split; [exact Hz|]. split; [exact Hx|].
  exact (proj2 (zero_volume_level_is_skipped
                  (mkLevel 7 0) 1 example_book 120 100 Hz Hx)).
Defined.

Lemma few_samples_print_and_return_witness :
  exists Y,
    sweep (best_ask thin_frame) (((2001 # 20) + (1999 # 20)) / 2) = inr Y /\
    (List.length (valid_samples Y) < 3)%nat /\
    analyze_slippage diverging_fit "AMZN" thin_frame =
    ([Plot X Y; Print "AMZN: Not enough data points for fitting."], inr tt).
Proof.
  destruct (sweep (best_ask thin_frame) (((2001 # 20) + (1999 # 20)) / 2))
    as [e|Y] eqn:HY; [vm_compute in HY; discriminate HY|].
  assert (Hfew : (List.length (valid_samples Y) < 3)%nat).
  { vm_compute in HY. injection HY as <-. vm_compute. lia. }
  exists Y. split; [reflexivity|]. split; [exact Hfew|].
  exact (few_samples_print_and_return diverging_fit "AMZN"
           (mkRow (2001 # 20) 15 (1999 # 20)) [] Y HY Hfew).
Defined.

(** * Properties of the analysis *)

(** ** The sweep over the size grid *)

Lemma X_bounds : Forall (fun x => 10 <= x /\ x <= 290) X.
Proof.
  unfold X. apply Forall_forall. intros x Hin.
  apply in_map_iff in Hin. destruct Hin as (k & <- & Hk).
  apply in_seq in Hk. split; unfold Qle; cbn [Qnum Qden inject_Z]; lia.
Qed.

Lemma compute_slippage_returns (book : order_book) (x mid : Q) :
  ~ x == 0 -> exists y, compute_slippage book x mid = inr y.
Proof.
  intros Hx. unfold compute_slippage, after_loop.
  destruct (walk book 0 x) as [tc rem].
  destruct (Qlt_le_dec 0 rem); [eexists; reflexivity|].
  unfold py_div. destruct (Qeq_dec x 0); [contradiction|].
  eexists; reflexivity.
Qed.

Lemma traverse_inv {A B : Type} (f : A -> result B) (xs : list A) :
  forall ys, traverse f xs = inr ys -> Forall2 (fun x y => f x = inr y) xs ys.
Proof.
  induction xs as [|a xs IH]; simpl; intros ys H.
  - injection H as <-. constructor.
  - destruct (f a) as [e|b] eqn:Ha; simpl in H; [discriminate|].
    destruct (traverse f xs) as [e|bs]; simpl in H; [discriminate|].
    injection H as <-. constructor; [exact Ha|]. apply IH. reflexivity.
Qed.

Lemma traverse_returns {A B : Type} (f : A -> result B) (xs : list A) :
  Forall (fun x => exists y, f x = inr y) xs ->
  exists ys, traverse f xs = inr ys.
Proof.
  induction 1 as [|a xs [b Hb] _ [bs IH]]; simpl.
  - eexists; reflexivity.
  - rewrite Hb, IH. simpl. eexists; reflexivity.
Qed.

(** X7.  The sweep over the grid 10, 20, ..., 290 never fails, whatever
    the book and the mid-price: it yields one sample per grid size, each the
    estimator's result for that size. *)
Theorem sweep_returns (book : order_book) (mid_price : Q) :
  exists Y,
    sweep book mid_price = inr Y /\
    List.length Y = 29%nat /\
    Forall2 (fun x y => compute_slippage book x mid_price = inr y) X Y.
Proof.
  destruct (traverse_returns
              (fun x => compute_slippage book x mid_price) X) as [Y HY].
  { eapply Forall_impl; [|exact X_bounds].
    intros x [Hx _]. apply compute_slippage_returns. lra. }
  exists Y. split; [exact HY|].
  pose proof (traverse_inv _ _ _ HY) as HF.
  split; [|exact HF].
  apply Forall2_length in HF. rewrite <- HF. reflexivity.
Qed.

(** ** What reaches the solver *)

Lemma valid_samples_cons (y : pyfloat) (ys : list pyfloat) :
  valid_samples (y :: ys) =
  if isnan y then valid_samples ys else y :: valid_samples ys.
Proof. unfold valid_samples. simpl. destruct (isnan y); reflexivity. Qed.

Lemma valid_samples_not_nan (Y : list pyfloat) :
  Forall (fun y => isnan y = false) (valid_samples Y).
Proof.
  induction Y as [|y ys IH]; [constructor|].
  rewrite valid_samples_cons. destruct (isnan y) eqn:E; [exact IH|].
  constructor; assumption.
Qed.

Lemma select_parallel {A B : Type} (mask : list bool) :
  forall (a : list A) (b : list B),
    List.length a = List.length b ->
    List.length (select mask a) = List.length (select mask b).
Proof.
  induction mask as [|m mask IH]; intros [|u a] [|v b] H;
    simpl in *; try reflexivity; try discriminate.
  injection H as H. destruct m; simpl; rewrite (IH a b H); reflexivity.
Qed.

Lemma select_length_le {A : Type} (mask : list bool) :
  forall a : list A, (List.length (select mask a) <= List.length a)%nat.
Proof.
  induction mask as [|m mask IH]; intros [|u a]; simpl; try lia.
  specialize (IH a). destruct m; simpl; lia.
Qed.

(** X10.  Whatever the book, the sizes and the samples kept for the
    solver are parallel sequences of the same length, at most 29, and no
    kept sample is NaN. *)
Theorem solver_input_is_clean (book : order_book) (mid_price : Q) :
  exists Y,
    sweep book mid_price = inr Y /\
    List.length (select (map (fun y => negb (isnan y)) Y) X)
      = List.length (valid_samples Y) /\
    (List.length (valid_samples Y) <= 29)%nat /\
    Forall (fun y => isnan y = false) (valid_samples Y).
Proof.
  destruct (sweep_returns book mid_price) as (Y & HY & Hlen & HF).
  exists Y. split; [exact HY|]. split; [|split].
  - unfold valid_samples. apply select_parallel.
    apply Forall2_length in HF. exact HF.
  - unfold valid_samples. rewrite <- Hlen. apply select_length_le.
  - apply valid_samples_not_nan.
Qed.

(** * Properties of the driver *)

Section DriverFacts.

Variable path_exists : string -> bool.
Variable read_csv : string -> result (list lob_row).
Variable curve_fit : list Q -> list pyfloat -> result (Q * Q).

(** X13.  Tickers whose data file does not exist are reported, one line
    each and in order, and skipped: nothing is read or fitted, and the
    driver returns normally. *)
Theorem missing_files_are_reported (ts : list string) :
  Forall (fun t => path_exists (data_path t) = false) ts ->
  run_tickers path_exists read_csv curve_fit ts =
  (map (fun t => Print (append "Missing data file: " (data_path t))) ts,
   inr tt).
Proof.
  induction 1 as [|t ts Ht _ IH]; [reflexivity|].
  simpl. rewrite Ht, IH. reflexivity.
Qed.

(** X14.  Nothing catches a failure: when the tickers before [t] have run
    to their end and the analysis of [t] raises, the driver raises the same
    failure with the events produced so far, and the tickers after [t] are
    never looked at. *)
Theorem first_failure_stops_the_driver
    (before after : list string) (t : string)
    (events_before events_t : list event) (e : exn) :
  run_tickers path_exists read_csv curve_fit before = (events_before, inr tt) ->
  path_exists (data_path t) = true ->
  analyze_ticker read_csv curve_fit t = (events_t, inl e) ->
  run_tickers path_exists read_csv curve_fit (before ++ t :: after) =
  (events_before ++ events_t, inl e).
Proof.
  intros Hbefore Ht He. revert events_before Hbefore.
  induction before as [|b before IH]; intros events_before Hbefore.
  - simpl in Hbefore. injection Hbefore as <-.
    simpl. rewrite Ht, He. reflexivity.
  - simpl in *.
    destruct (negb (path_exists (data_path b))).
    + destruct (run_tickers path_exists read_csv curve_fit before)
        as [ev r] eqn:Hrun.
      injection Hbefore as <- ->.
      rewrite (IH ev eq_refl). reflexivity.
    + destruct (analyze_ticker read_csv curve_fit b) as [ev [e'|u]];
        [discriminate|].
      destruct (run_tickers path_exists read_csv curve_fit before)
        as [ev' r] eqn:Hrun.
      injection Hbefore as <- ->.
      rewrite (IH ev' eq_refl). rewrite app_assoc. reflexivity.
Qed.

End DriverFacts.

(** ** The further properties at concrete inputs *)

Lemma missing_files_are_reported_witness :
  Forall (fun t => no_files (data_path t) = false) tickers /\
  main no_files read_deep diverging_fit =
  ([Print "Missing data file: data/AMZN_lob.csv";
    Print "Missing data file: data/MSFT_lob.csv";
    Print "Missing data file: data/GOOG_lob.csv"], inr tt).
Proof.
  assert (H : Forall (fun t => no_files (data_path t) = false) tickers).
  { repeat constructor. }
  split; [exact H|].
  exact (missing_files_are_reported no_files read_deep diverging_fit
           tickers H).
Defined.

Lemma first_failure_stops_the_driver_witness :
  exists events_t,
    run_tickers amzn_missing read_deep diverging_fit ["AMZN"%string] =
      ([Print "Missing data file: data/AMZN_lob.csv"], inr tt) /\
    amzn_missing (data_path "MSFT") = true /\
    analyze_ticker read_deep diverging_fit "MSFT" =
      (events_t, inl (SolverError "Optimal parameters not found")) /\
    main amzn_missing read_deep diverging_fit =
      ([Print "Missing data file: data/AMZN_lob.csv"] ++ events_t,
       inl (SolverError "Optimal parameters not found")).
Proof.
  assert (Hb : run_tickers amzn_missing read_deep diverging_fit
                 ["AMZN"%string] =
               ([Print "Missing data file: data/AMZN_lob.csv"], inr tt))
    by reflexivity.
  assert (Ht : amzn_missing (data_path "MSFT") = true) by reflexivity.
  destruct (analyze_ticker read_deep diverging_fit "MSFT") as [ev r] eqn:He.
  assert (Hr : r = inl (SolverError "Optimal parameters not found")).
  { vm_compute in He. injection He as _ <-. reflexivity. }
  subst r. exists ev.
  split; [exact Hb|]. split; [exact Ht|]. split; [reflexivity|].
  exact (first_failure_stops_the_driver amzn_missing read_deep diverging_fit
           ["AMZN"%string] ["GOOG"%string] "MSFT" _ ev _ Hb Ht He).
Defined.

(** * The estimator on float64 *)

(** ** Rounding *)

Lemma round64_proper (p q : Q) : p == q -> round64 p = round64 q.
Proof.
  intros H. unfold round64. rewrite (Qred_complete p q H). reflexivity.
Qed.


Lemma nearest_even_spec (N D : Z) :
  (0 < D)%Z ->
  (- D <= 2 * (nearest_even N D * D - N) <= D)%Z.
Proof.
  intros HD. unfold nearest_even.
  pose proof (Z.div_mod N D ltac:(lia)) as Hdm.
  pose proof (Z.mod_pos_bound N D HD) as Hr.
  destruct (Z.compare_spec (2 * (N mod D)) D) as [E|L|G].
  - destruct (Z.even (N / D)); nia.
  - nia.
  - nia.
Qed.

Lemma pow2_pos (s : Z) : 0 < pow2 s.
Proof. apply Qpower_0_lt. reflexivity. Qed.

Lemma pow2_plus (a b : Z) : pow2 (a + b) == pow2 a * pow2 b.
Proof. apply Qpower_plus. discriminate. Qed.

Lemma pow2_opp (a : Z) : pow2 (- a) == / pow2 a.
Proof. apply Qpower_opp. Qed.

Lemma pow2_inject (a : Z) : (0 <= a)%Z -> inject_Z (2 ^ a) == pow2 a.
Proof. intros H. unfold pow2. rewrite Zpower_Qpower by assumption. reflexivity. Qed.

(** nearest_even in Q *)
Lemma nearest_even_Q (N D : Z) :
  (0 < D)%Z ->
  Qabs (inject_Z (nearest_even N D) - inject_Z N / inject_Z D) <= 1 # 2.
Proof.
  intros HD. pose proof (nearest_even_spec N D HD) as [H1 H2].
  set (m := nearest_even N D) in *.
  assert (HDq : 0 < inject_Z D) by (unfold Qlt; simpl; lia).
  assert (L : (2 * N <= 2 * (m * D) + D)%Z) by lia.
  assert (U : (2 * (m * D) <= 2 * N + D)%Z) by lia.
  rewrite Zle_Qle in L, U.
  rewrite !inject_Z_plus, !inject_Z_mult in L, U.
  change (inject_Z 2) with 2 in *.
  apply Qabs_Qle_condition.
  set (x := inject_Z m) in *. set (n := inject_Z N) in *.
  set (d := inject_Z D) in *.
  assert (E : n / d * d == n) by (field; lra).
  set (y := n / d) in *. clearbody x n d y.
  split; apply (Qmult_le_r _ _ d HDq); lra.
Qed.

Lemma scale_half (m y P a : Q) :
  0 < P -> Qabs (m - y) <= 1 # 2 -> y * P == a ->
  Qabs (m * P - a) <= P * (1 # 2).
Proof.
  intros HP H E. apply Qabs_Qle_condition in H. destruct H as [H1 H2].
  apply Qabs_Qle_condition.
  assert (L : - (1 # 2) * P <= (m - y) * P) by (apply Qmult_le_r; assumption).
  assert (U : (m - y) * P <= (1 # 2) * P) by (apply Qmult_le_r; assumption).
  split; lra.
Qed.

Lemma scaled_nearest_spec (n d s : Z) :
  (0 < d)%Z ->
  Qabs (inject_Z (scaled_nearest n d s) * pow2 s - inject_Z n / inject_Z d)
  <= pow2 s * (1 # 2).
Proof.
  intros Hd. unfold scaled_nearest.
  pose proof (pow2_pos s) as HP.
  assert (Hdq : 0 < inject_Z d) by (unfold Qlt; simpl; lia).
  destruct (Z.leb_spec 0 s) as [Hs|Hs].
  - assert (HD : (0 < d * 2 ^ s)%Z) by (apply Z.mul_pos_pos; [lia|apply Z.pow_pos_nonneg; lia]).
    apply (scale_half _ (inject_Z n / inject_Z (d * 2 ^ s))); try assumption.
    + apply nearest_even_Q. exact HD.
    + rewrite inject_Z_mult, (pow2_inject s Hs). field.
      split; lra.
  - apply (scale_half _ (inject_Z (n * 2 ^ (- s)) / inject_Z d)); try assumption.
    + apply nearest_even_Q. exact Hd.
    + rewrite inject_Z_mult, (pow2_inject (- s)) by lia.
      rewrite pow2_opp. field. split; lra.
Qed.

Lemma binade_spec (n d : Z) :
  (0 < n)%Z -> (0 < d)%Z ->
  pow2 (binade n d) <= inject_Z n / inject_Z d.
Proof.
  intros Hn Hd. unfold binade.
  assert (Hdq : 0 < inject_Z d) by (unfold Qlt; simpl; lia).
  assert (Hnq : 0 < inject_Z n) by (unfold Qlt; simpl; lia).
  destruct (Z.leb_spec d n) as [Hle|Hlt].
  - assert (Hk : (0 < n / d)%Z) by (apply Z.div_str_pos; lia).
    pose proof (Z.log2_spec (n / d) Hk) as [Hlo _].
    pose proof (Z.mul_div_le n d Hd) as Hmul.
    assert (Hz : (2 ^ Z.log2 (n / d) * d <= n)%Z) by nia.
    rewrite <- pow2_inject by apply Z.log2_nonneg.
    apply Qle_shift_div_l; [exact Hdq|].
    rewrite <- inject_Z_mult, <- Zle_Qle. exact Hz.
  - set (c := ((d + n - 1) / n)%Z).
    assert (Hc : (d <= c * n)%Z).
    { pose proof (Z.div_mod (d + n - 1) n ltac:(lia)) as Hdm.
      pose proof (Z.mod_pos_bound (d + n - 1) n Hn) as Hr.
      fold c in Hdm. nia. }
    assert (Hcpos : (0 < c)%Z) by nia.
    pose proof (Z.log2_log2_up_spec c Hcpos) as [_ Hup].
    set (L := Z.log2_up c) in *.
    assert (HL : (0 <= L)%Z) by apply Z.log2_up_nonneg.
    assert (Hz : (d <= n * 2 ^ L)%Z) by nia.
    rewrite pow2_opp, <- (pow2_inject L HL).
    assert (HPq : 0 < inject_Z (2 ^ L)).
    { unfold Qlt; simpl. pose proof (Z.pow_pos_nonneg 2 L ltac:(lia) HL). lia. }
    rewrite Zle_Qle, inject_Z_mult in Hz.
    apply Qle_shift_div_l; [exact Hdq|].
    apply (Qmult_le_l _ _ (inject_Z (2 ^ L)) HPq).
    field_simplify; [|lra]. lra.
Qed.

Lemma half_ulp_bound (n d : Z) :
  (0 < n)%Z -> (0 < d)%Z ->
  pow2 (Z.max (binade n d - 52) (-1074)) * (1 # 2)
  <= unit_roundoff * (inject_Z n / inject_Z d) + least_step.
Proof.
  intros Hn Hd.
  pose proof (binade_spec n d Hn Hd) as Hb.
  assert (Ha : 0 < inject_Z n / inject_Z d).
  { apply Qlt_shift_div_l; unfold Qlt; simpl; lia. }
  pose proof (pow2_pos (-53)) as Hu. pose proof (pow2_pos (-1075)) as He.
  unfold unit_roundoff, least_step.
  destruct (Z.max_spec (binade n d - 52) (-1074)) as [[Hlt ->]|[Hge ->]].
  - assert (E : pow2 (-1074) * (1 # 2) == pow2 (-1075)).
    { change (-1075)%Z with (-1074 + -1)%Z. rewrite pow2_plus. reflexivity. }
    rewrite E.
    assert (0 <= pow2 (-53) * (inject_Z n / inject_Z d))
      by (apply Qmult_le_0_compat; lra).
    lra.
  - assert (E : pow2 (binade n d - 52) * (1 # 2) == pow2 (-53) * pow2 (binade n d)).
    { replace (binade n d - 52)%Z with (binade n d + -52)%Z by lia.
      rewrite pow2_plus.
      change (-53)%Z with (-52 + -1)%Z. rewrite (pow2_plus (-52) (-1)).
      change (pow2 (-1)) with (/ 2). field. }
    rewrite E.
    assert (pow2 (-53) * pow2 (binade n d)
            <= pow2 (-53) * (inject_Z n / inject_Z d))
      by (apply Qmult_le_l; assumption).
    lra.
Qed.

Theorem round64_error (q : Q) :
  Qabs (round64 q - q) <= unit_roundoff * Qabs q + least_step.
Proof.
  unfold round64. pose proof (Qred_correct q) as Eq.
  destruct (Qred q) as [zn dp]. cbn [Qnum Qden].
  pose proof (pow2_pos (-53)) as Hu. pose proof (pow2_pos (-1075)) as He.
  destruct (Z.eqb_spec (Z.abs zn) 0) as [Hz|Hz].
  - assert (E : q == 0).
    { rewrite <- Eq. assert (zn = 0%Z) by lia. subst zn. reflexivity. }
    rewrite E. unfold unit_roundoff, least_step.
    change (Qabs (0 - 0)) with 0. change (Qabs 0) with 0. lra.
  - set (n := Z.abs zn) in *. set (d := Z.pos dp).
    assert (Hn : (0 < n)%Z) by lia. assert (Hd : (0 < d)%Z) by reflexivity.
    set (s := Z.max (binade n d - 52) (-1074)).
    pose proof (scaled_nearest_spec n d s Hd) as Hm.
    pose proof (half_ulp_bound n d Hn Hd) as Hh. fold s in Hh.
    set (m := scaled_nearest n d s) in *.
    set (a := inject_Z n / inject_Z d) in *.
    assert (Ha : 0 < a).
    { apply Qlt_shift_div_l; unfold Qlt; simpl; lia. }
    assert (Hq : q == inject_Z zn / inject_Z d).
    { rewrite <- Eq. apply Qmake_Qdiv. }
    assert (Hdq : 0 < inject_Z d) by (unfold Qlt; simpl; lia).
    destruct (Z.lt_total zn 0) as [Hneg|[H0|Hpos]]; [|lia|].
    + assert (Hqa : q == - a).
      { rewrite Hq. unfold a, n. rewrite (Z.abs_neq zn) by lia.
        rewrite inject_Z_opp. field. lra. }
      rewrite (Z.sgn_neg zn Hneg).
      replace (-1 * m)%Z with (- m)%Z by lia. rewrite inject_Z_opp.
      rewrite Hqa. rewrite Qabs_opp. rewrite (Qabs_pos a) by lra.
      assert (E : - inject_Z m * pow2 s - - a == - (inject_Z m * pow2 s - a))
        by ring.
      rewrite E, Qabs_opp. lra.
    + assert (Hqa : q == a).
      { rewrite Hq. unfold a, n. rewrite (Z.abs_eq zn) by lia. reflexivity. }
      rewrite (Z.sgn_pos zn Hpos).
      replace (1 * m)%Z with m by lia.
      rewrite Hqa. rewrite (Qabs_pos a) by lra. lra.
Qed.

Lemma nearest_even_one (N : Z) : nearest_even N 1 = N.
Proof.
  unfold nearest_even. rewrite Z.div_1_r, Z.mod_1_r. reflexivity.
Qed.

Theorem round64_int (z : Z) :
  (Z.abs z < 2 ^ 53)%Z -> round64 (inject_Z z) == inject_Z z.
Proof.
  intros Hz. unfold round64.
  rewrite (Qcanon.Qred_identity (inject_Z z)) by (simpl; apply Z.gcd_1_r).
  cbn [Qnum Qden inject_Z].
  destruct (Z.eqb_spec (Z.abs z) 0) as [H0|H0].
  - assert (z = 0%Z) by lia. subst z. reflexivity.
  - set (n := Z.abs z) in *. assert (Hn : (0 < n)%Z) by lia.
    assert (Hb : binade n 1 = Z.log2 n).
    { unfold binade. destruct (Z.leb_spec 1 n); [|lia].
      rewrite Z.div_1_r. reflexivity. }
    rewrite Hb.
    assert (Hl : (0 <= Z.log2 n < 53)%Z).
    { split; [apply Z.log2_nonneg|]. apply Z.log2_lt_pow2; lia. }
    rewrite Z.max_l by lia.
    set (s := (Z.log2 n - 52)%Z).
    assert (Hm : scaled_nearest n 1 s = (n * 2 ^ (- s))%Z).
    { unfold scaled_nearest. destruct (Z.leb_spec 0 s) as [Hs|Hs].
      - assert (s = 0%Z) by lia. replace s with 0%Z by lia.
        simpl. rewrite nearest_even_one. lia.
      - apply nearest_even_one. }
    rewrite Hm.
    replace (Z.sgn z * (n * 2 ^ (- s)))%Z with (z * 2 ^ (- s))%Z
      by (unfold n; rewrite Z.mul_assoc, (Z.mul_comm (Z.sgn z)), Z.abs_sgn;
          reflexivity).
    rewrite inject_Z_mult, (pow2_inject (- s)) by lia.
    rewrite pow2_opp. change (z # 1) with (inject_Z z). field.
    pose proof (pow2_pos s). lra.
Qed.

(** Without rounding the float64 loop is the loop in exact arithmetic. *)
Lemma walk_fl_exact (book : order_book) :
  forall tc rem, walk_fl (fun q => q) book tc rem = walk book tc rem.
Proof.
  induction book as [|l ls IH]; intros tc rem; simpl.
  - reflexivity.
  - destruct (Qle_lt_dec (rem - py_min rem (ask_volume_1 l)) 0);
      [reflexivity|apply IH].
Qed.

(** ** Orders at the edge of the book's depth *)

(** C1 fails on float64.  The book of volumes 0.9, 0.7 and 0.4 holds
    exactly 2 shares, and an order of 2 is not filled: the rounded
    subtractions leave a positive remainder and the result is nan, on the
    rounded loop and on the machine alike; in exact arithmetic the same
    order is filled at an average of 1.75. *)
Theorem boundary_order_is_unfilled_on_float64 :
  Forall2 same_level fractional_book_hw fractional_book /\
  snapshot fractional_book /\
  total_volume fractional_book == 2 /\
  compute_slippage64 fractional_book 2 1 = NotANumber /\
  value_of (compute_slippage_hw fractional_book_hw 2 1) = NotANumber /\
  (exists rest,
      0 < rest /\ snd (walk_fl round64 fractional_book 0 2) = rest) /\
  (exists s, compute_slippage fractional_book 2 1 = inr (Num s) /\
             s == 3 # 4).
Proof.
  split; [repeat constructor; vm_compute; reflexivity|].
  split; [repeat (constructor; [split; vm_compute; (reflexivity || discriminate)|]);
          constructor|].
  split; [vm_compute; reflexivity|].
  split; [vm_compute; reflexivity|].
  split; [vm_compute; reflexivity|].
  split; [eexists; split; [|reflexivity]; vm_compute; reflexivity|].
  eexists. split; [vm_compute; reflexivity|]. vm_compute. reflexivity.
Qed.

(** C2 fails on float64.  The book of volumes 0.2 and 0.7 holds less than
    the order of 0.9, and the order is filled all the same: the rounded
    [0.9 - 0.2] is the double 0.7, the remainder ends at zero and the
    result is a number, on the rounded loop and on the machine alike. *)
Theorem unfillable_order_is_filled_on_float64 :
  Forall2 same_level short_book_hw short_book /\
  float64_eq (value_of 0.9%float) (Finite (dbl (9 # 10))) /\
  snapshot short_book /\
  0 < dbl (9 # 10) /\
  total_volume short_book < dbl (9 # 10) /\
  exists s,
    compute_slippage64 short_book (dbl (9 # 10)) 1 = Finite s /\
    float64_eq (value_of (compute_slippage_hw short_book_hw 0.9 1)) (Finite s) /\
    compute_slippage short_book (dbl (9 # 10)) 1 = inr NaN.
Proof.
  split; [repeat constructor; vm_compute; reflexivity|].
  split; [vm_compute; reflexivity|].
  split; [repeat (constructor; [split; vm_compute; (reflexivity || discriminate)|]);
          constructor|].
  split; [vm_compute; reflexivity|].
  split; [vm_compute; reflexivity|].
  eexists. split; [vm_compute; reflexivity|].
  split; vm_compute; reflexivity.
Qed.

(** ** Monotonicity *)


(** ** Rounding error along the loop *)

Section ErrorAnalysis.

Variable rnd : Q -> Q.
Variables u eta : Q.

Hypothesis rnd_proper : forall p q, p == q -> rnd p = rnd q.
Hypothesis rnd_error : forall q, Qabs (rnd q - q) <= u * Qabs q + eta.
Hypothesis rnd_int :
  forall z, (Z.abs z < 2 ^ 53)%Z -> rnd (inject_Z z) == inject_Z z.
Hypothesis u_nonneg : 0 <= u.
Hypothesis u_small : u <= 1.
Hypothesis eta_nonneg : 0 <= eta.

Lemma rnd_close (q b : Q) :
  Qabs q <= b -> Qabs (rnd q - q) <= u * b + eta.
Proof.
  intros Hb. pose proof (rnd_error q) as H.
  assert (u * Qabs q <= u * b)
    by (rewrite !(Qmult_comm u); apply Qmult_le_compat_r; assumption).
  lra.
Qed.

(** One iteration: the error of [total_cost] after it. *)
Lemma step_error (tf t a E : Q) :
  0 <= t -> 0 <= a -> Qabs (tf - t) <= E ->
  Qabs (rnd (tf + rnd a) - (t + a))
  <= (1 + u) * E + u * t + (2 * u + u * u) * a + (2 + u) * eta.
Proof.
  intros Ht Ha HE.
  assert (HE0 : 0 <= E) by (pose proof (Qabs_nonneg (tf - t)); lra).
  pose proof (rnd_close a a) as Hra.
  rewrite (Qabs_pos a) in Hra by assumption. specialize (Hra (Qle_refl a)).
  set (af := rnd a) in *.
  pose proof (rnd_close (tf + af) (t + E + (a + (u * a + eta)))) as Hry.
  apply Qabs_Qle_condition in HE. apply Qabs_Qle_condition in Hra.
  assert (Hy : Qabs (tf + af) <= t + E + (a + (u * a + eta)))
    by (apply Qabs_Qle_condition; split; lra).
  specialize (Hry Hy). set (yf := rnd (tf + af)) in *.
  apply Qabs_Qle_condition in Hry. apply Qabs_Qle_condition.
  split; lra.
Qed.

Lemma Qprod_nonneg3 (a b c : Q) : 0 <= a -> 0 <= b -> 0 <= c -> 0 <= a * b * c.
Proof. intros. repeat apply Qmult_le_0_compat; assumption. Qed.

(** The bound on the error is kept by an iteration, with the factor
    [(1+u)^2] more and three more [eta]. *)
Lemma step_invariant (t a E g c : Q) :
  0 <= t -> 0 <= a -> 1 <= g -> 0 <= c ->
  E <= (g - 1) * t + c * g * eta ->
  (1 + u) * E + u * t + (2 * u + u * u) * a + (2 + u) * eta
  <= ((1 + u) * (1 + u) * g - 1) * (t + a)
     + (c + 3) * ((1 + u) * (1 + u) * g) * eta.
Proof.
  intros Ht Ha Hg Hc HE.
  assert (P1 : 0 <= u * ((g - 1) * t + c * g * eta - E))
    by (apply Qmult_le_0_compat; lra).
  assert (P2 : 0 <= (1 + u) * g * (u * t))
    by (apply Qprod_nonneg3; try lra; apply Qmult_le_0_compat; lra).
  assert (P3 : 0 <= (1 + u) * (1 + u) * ((g - 1) * a))
    by (apply Qprod_nonneg3; try lra; apply Qmult_le_0_compat; lra).
  assert (P4 : 0 <= c * g * ((1 + u) * u * eta))
    by (apply Qprod_nonneg3; try lra; apply Qprod_nonneg3; lra).
  assert (P5 : 0 <= (g - 1) * eta) by (apply Qmult_le_0_compat; lra).
  assert (P6 : 0 <= u * g * eta) by (apply Qprod_nonneg3; lra).
  assert (P7 : 0 <= u * u * (g * eta))
    by (apply Qprod_nonneg3; try lra; apply Qmult_le_0_compat; lra).
  assert (P8 : 0 <= (1 - u) * eta) by (apply Qmult_le_0_compat; lra).
  lra.
Qed.

Lemma qpow_ge_1 (b : Q) (n : nat) : 1 <= b -> 1 <= qpow b n.
Proof.
  intros Hb. induction n as [|n IH]; simpl; [lra|].
  assert (0 <= (b - 1) * (qpow b n - 1)) by (apply Qmult_le_0_compat; lra).
  lra.
Qed.

Lemma count_succ (n : nat) :
  inject_Z (Z.of_nat (S n)) == inject_Z (Z.of_nat n) + 1.
Proof. rewrite Nat2Z.inj_succ. unfold Z.succ. rewrite inject_Z_plus. reflexivity. Qed.

Lemma count_nonneg (n : nat) : 0 <= inject_Z (Z.of_nat n).
Proof. unfold Qle. simpl. lia. Qed.

(** The bound grows with its factor and its count. *)
Lemma bound_weaken (G G' C C' t : Q) :
  1 <= G -> G <= G' -> 0 <= C -> C <= C' -> 0 <= t ->
  (G - 1) * t + C * G * eta <= (G' - 1) * t + C' * G' * eta.
Proof.
  intros HG HGG HC HCC Ht.
  assert (P1 : 0 <= (G' - G) * t) by (apply Qmult_le_0_compat; lra).
  assert (P2 : 0 <= C' * (G' - G) * eta) by (apply Qprod_nonneg3; lra).
  assert (P3 : 0 <= (C' - C) * G * eta) by (apply Qprod_nonneg3; lra).
  lra.
Qed.

(** Along a book of whole volumes the rounded loop keeps [remaining]
    exact and [total_cost] within the bound. *)
Lemma walk_fl_close (book : order_book) :
  nonneg_volumes book -> whole_volumes book ->
  Forall (fun l => 0 <= ask_price_1 l) book ->
  forall tcf tc remf rem r g c,
    remf == rem -> rem == inject_Z r -> (0 < r < 2 ^ 53)%Z ->
    0 <= tc -> 1 <= g -> 0 <= c ->
    Qabs (tcf - tc) <= (g - 1) * tc + c * g * eta ->
    snd (walk_fl rnd book tcf remf) == snd (walk book tc rem) /\
    0 <= fst (walk book tc rem) /\
    Qabs (fst (walk_fl rnd book tcf remf) - fst (walk book tc rem))
    <= (g * qpow ((1 + u) * (1 + u)) (List.length book) - 1)
         * fst (walk book tc rem)
       + (c + 3 * inject_Z (Z.of_nat (List.length book)))
         * (g * qpow ((1 + u) * (1 + u)) (List.length book)) * eta.
Proof.
  intros Hvol Hwhole Hprice.
  induction book as [|l ls IH]; intros tcf tc remf rem r g c Erem Er Hr Htc Hg Hc HE.
  - simpl. split; [exact Erem|]. split; [exact Htc|].
    eapply Qle_trans; [exact HE|]. apply Qle_lteq. right.
    change (inject_Z (Z.of_nat 0)) with 0. ring.
  - inversion Hvol as [|? ? Hv Hvol']; subst.
    inversion Hwhole as [|? ? [vz Ev] Hwhole']; subst.
    inversion Hprice as [|? ? Hp Hprice']; subst.
    specialize (IH Hvol' Hwhole' Hprice').
    set (K := (1 + u) * (1 + u)) in *.
    assert (HK : 1 <= K).
    { unfold K. assert (0 <= u * u) by (apply Qmult_le_0_compat; lra). lra. }
    pose proof (qpow_ge_1 K (List.length ls) HK) as HKn.
    pose proof (count_nonneg (List.length ls)) as HN.
    assert (Hvz : (0 <= vz)%Z).
    { rewrite Ev in Hv. unfold Qle in Hv. simpl in Hv. lia. }
    assert (Hrem : 0 < rem).
    { rewrite Er. unfold Qlt. simpl. lia. }
    (* the bound after this level, whichever the fill *)
    assert (Hstep : forall a,
               0 <= a ->
               Qabs (rnd (tcf + rnd a) - (tc + a))
               <= (K * g - 1) * (tc + a) + (c + 3) * (K * g) * eta).
    { intros a Ha.
      eapply Qle_trans;
        [apply (step_error tcf tc a ((g - 1) * tc + c * g * eta)); assumption|].
      apply step_invariant; try assumption. apply Qle_refl. }
    (* the bound of the whole book from the bound after this level *)
    assert (Hweak : forall t,
               0 <= t ->
               (K * g - 1) * t + (c + 3) * (K * g) * eta
               <= (g * qpow K (S (List.length ls)) - 1) * t
                  + (c + 3 * inject_Z (Z.of_nat (S (List.length ls))))
                    * (g * qpow K (S (List.length ls))) * eta).
    { intros t Ht. rewrite count_succ. simpl qpow.
      apply bound_weaken; try lra.
      - assert (0 <= (K - 1) * g) by (apply Qmult_le_0_compat; lra). lra.
      - assert (0 <= K * g * (qpow K (List.length ls) - 1))
          by (apply Qprod_nonneg3; lra).
        lra. }
    simpl walk_fl. simpl walk. simpl List.length.
    destruct (Qlt_le_dec (ask_volume_1 l) rem) as [Hlt|Hge].
    + (* the level is emptied *)
      rewrite (py_min_gt rem) by exact Hlt.
      rewrite (py_min_gt remf) by (rewrite Erem; exact Hlt).
      set (v := ask_volume_1 l) in *. set (p := ask_price_1 l) in *.
      assert (Hr1 : (0 < r - vz < 2 ^ 53)%Z).
      { rewrite Ev, Er in Hlt. unfold Qlt in Hlt. simpl in Hlt. lia. }
      assert (E1 : rem - v == inject_Z (r - vz)).
      { rewrite Er, Ev. unfold Z.sub. rewrite inject_Z_plus, inject_Z_opp. ring. }
      assert (Ef : rnd (remf - v) == rem - v).
      { rewrite (rnd_proper (remf - v) (inject_Z (r - vz)))
          by (rewrite Erem; exact E1).
        rewrite rnd_int by lia. symmetry. exact E1. }
      destruct (Qle_lt_dec (rnd (remf - v)) 0) as [Hb|Hb];
        [rewrite Ef, E1 in Hb; unfold Qle in Hb; simpl in Hb; lia|].
      destruct (Qle_lt_dec (rem - v) 0) as [Hb'|Hb'];
        [rewrite E1 in Hb'; unfold Qle in Hb'; simpl in Hb'; lia|].
      assert (Ha : 0 <= v * p) by (apply Qmult_le_0_compat; assumption).
      destruct (IH (rnd (tcf + rnd (v * p))) (tc + v * p)
                   (rnd (remf - v)) (rem - v) (r - vz)%Z (K * g) (c + 3))
        as (R1 & R2 & R3); try assumption; try lra.
      * assert (0 <= (K - 1) * g) by (apply Qmult_le_0_compat; lra). lra.
      * apply Hstep. exact Ha.
      * split; [exact R1|]. split; [exact R2|].
        eapply Qle_trans; [exact R3|]. apply Qle_lteq. right.
        rewrite count_succ. simpl qpow. ring.
    + (* the order ends on this level *)
      rewrite (py_min_le rem) by exact Hge.
      rewrite (py_min_le remf) by (rewrite Erem; exact Hge).
      set (p := ask_price_1 l) in *.
      assert (Ef : rnd (remf - remf) == 0).
      { rewrite (rnd_proper (remf - remf) (inject_Z 0)) by (simpl; ring).
        rewrite rnd_int by (simpl; lia). reflexivity. }
      destruct (Qle_lt_dec (rnd (remf - remf)) 0) as [Hb|Hb]; [|lra].
      destruct (Qle_lt_dec (rem - rem) 0) as [Hb'|Hb']; [|lra].
      cbn [fst snd].
      assert (Ha : 0 <= rem * p) by (apply Qmult_le_0_compat; lra).
      rewrite (rnd_proper (remf * p) (rem * p)) by (rewrite Erem; reflexivity).
      split; [rewrite Ef; ring|]. split; [lra|].
      eapply Qle_trans; [apply Hstep; exact Ha|].
      apply Hweak. lra.
Qed.

(** The division and the subtraction after the loop. *)
Lemma final_error (tcf t x mid E : Q) :
  0 < x -> 0 <= t -> Qabs (tcf - t) <= E ->
  Qabs (rnd (rnd (tcf / x) - mid) - (t / x - mid))
  <= (1 + u) * (((1 + u) * E + u * t) / x + eta)
     + u * (t / x + Qabs mid) + eta.
Proof.
  intros Hx Ht HE.
  assert (HE0 : 0 <= E) by (pose proof (Qabs_nonneg (tcf - t)); lra).
  assert (Hix : 0 < / x) by (apply Qinv_lt_0_compat; exact Hx).
  unfold Qdiv. set (ix := / x) in *.
  apply Qabs_Qle_condition in HE. destruct HE as [HE1 HE2].
  assert (L1 : (t - E) * ix <= tcf * ix)
    by (apply Qmult_le_compat_r; lra).
  assert (U1 : tcf * ix <= (t + E) * ix)
    by (apply Qmult_le_compat_r; lra).
  assert (HA : 0 <= t * ix) by (apply Qmult_le_0_compat; lra).
  assert (HB : 0 <= E * ix) by (apply Qmult_le_0_compat; lra).
  pose proof (rnd_close (tcf * ix) (t * ix + E * ix)) as Hq1.
  assert (Hy1 : Qabs (tcf * ix) <= t * ix + E * ix)
    by (apply Qabs_Qle_condition; split; lra).
  specialize (Hq1 Hy1). set (q1 := rnd (tcf * ix)) in *.
  apply Qabs_Qle_condition in Hq1. destruct Hq1 as [Hq1 Hq2].
  pose proof (Qabs_nonneg mid) as HM.
  pose proof (proj1 (Qabs_Qle_condition mid (Qabs mid)) (Qle_refl _)) as [HM1 HM2].
  set (M := Qabs mid) in *.
  set (D1 := E * ix + (u * (t * ix + E * ix) + eta)).
  assert (HD1 : 0 <= D1).
  { unfold D1.
    assert (0 <= u * (t * ix + E * ix)) by (apply Qmult_le_0_compat; lra). lra. }
  pose proof (rnd_close (q1 - mid) (t * ix + D1 + M)) as Hq3.
  assert (Hy2 : Qabs (q1 - mid) <= t * ix + D1 + M)
    by (apply Qabs_Qle_condition; unfold D1; split; lra).
  specialize (Hq3 Hy2). set (q2 := rnd (q1 - mid)) in *.
  apply Qabs_Qle_condition in Hq3. destruct Hq3 as [Hq3 Hq4].
  assert (ED : (1 + u) * (((1 + u) * E + u * t) * ix + eta)
               + u * (t * ix + M) + eta
               == D1 + (u * (t * ix + D1 + M) + eta))
    by (unfold D1; ring).
  rewrite ED. apply Qabs_Qle_condition. unfold D1 in *. split; lra.
Qed.

Lemma cost_slack_proper (n : nat) (t t' : Q) :
  t == t' -> cost_slack u eta n t == cost_slack u eta n t'.
Proof. intros E. unfold cost_slack. rewrite E. reflexivity. Qed.

(** A whole order within the depth of a book of whole volumes: the
    rounded loop fills it, and its result is within the slack of the exact
    slippage. *)
Lemma compute_slippage_fl_filled (book : order_book) (x mid : Q) :
  snapshot book -> whole_volumes book -> share_count x ->
  0 < x -> x <= total_volume book ->
  exists s,
    compute_slippage_fl rnd book x mid = Finite s /\
    Qabs (s - (brute_force_cost book x / x - mid))
    <= slack u eta (List.length book) (brute_force_cost book x) x mid.
Proof.
  intros Hbook Hwhole (r & Er & Hr) Hx Hdepth.
  pose proof (snapshot_volumes book Hbook) as Hvol.
  assert (Hprice : Forall (fun l => 0 <= ask_price_1 l) book).
  { revert Hbook. apply Forall_impl. intros l [H _]. lra. }
  assert (Hr0 : (0 < r)%Z).
  { rewrite Er in Hx. unfold Qlt in Hx. simpl in Hx. lia. }
  destruct (walk_fl_close book Hvol Hwhole Hprice 0 0 x x r 1 0)
    as (R1 & R2 & R3); try lra; try (split; assumption).
  { assert (E0 : 0 - 0 == 0) by ring. rewrite E0. change (Qabs 0) with 0. lra. }
  destruct (walk_spec book Hvol 0 x Hx) as [Hfill _].
  destruct (Hfill Hdepth) as [Hc Hrem].
  unfold compute_slippage_fl.
  destruct (walk_fl rnd book 0 x) as [tcf remf].
  destruct (walk book 0 x) as [tc rem]. cbn [fst snd] in *.
  unfold after_loop_fl.
  destruct (Qlt_le_dec 0 remf) as [H|_]; [lra|].
  destruct (Qeq_dec x 0) as [H|_]; [lra|].
  eexists. split; [reflexivity|].
  assert (Et : tc == brute_force_cost book x) by lra.
  set (t := brute_force_cost book x) in *.
  apply final_error; [exact Hx|lra|].
  rewrite <- (cost_slack_proper _ tc t Et). unfold cost_slack.
  rewrite <- Et.
  eapply Qle_trans; [exact R3|]. apply Qle_lteq. right. ring.
Qed.

(** A whole order beyond the depth of a book of whole volumes is not
    filled by the rounded loop either. *)
Lemma compute_slippage_fl_short (book : order_book) (x mid : Q) :
  snapshot book -> whole_volumes book -> share_count x ->
  0 < x -> total_volume book < x ->
  compute_slippage_fl rnd book x mid = NotANumber.
Proof.
  intros Hbook Hwhole (r & Er & Hr) Hx Hdepth.
  pose proof (snapshot_volumes book Hbook) as Hvol.
  assert (Hprice : Forall (fun l => 0 <= ask_price_1 l) book).
  { revert Hbook. apply Forall_impl. intros l [H _]. lra. }
  assert (Hr0 : (0 < r)%Z).
  { rewrite Er in Hx. unfold Qlt in Hx. simpl in Hx. lia. }
  destruct (walk_fl_close book Hvol Hwhole Hprice 0 0 x x r 1 0)
    as (R1 & _ & _); try lra; try (split; assumption).
  { assert (E0 : 0 - 0 == 0) by ring. rewrite E0. change (Qabs 0) with 0. lra. }
  destruct (walk_spec book Hvol 0 x Hx) as [_ Hshort].
  specialize (Hshort Hdepth).
  unfold compute_slippage_fl.
  destruct (walk_fl rnd book 0 x) as [tcf remf].
  destruct (walk book 0 x) as [tc rem]. cbn [fst snd] in *.
  unfold after_loop_fl.
  destruct (Qlt_le_dec 0 remf) as [_|H]; [reflexivity|lra].
Qed.




End ErrorAnalysis.

(** ** The slack of binary64 *)

Lemma unit_roundoff_range : 0 <= unit_roundoff /\ unit_roundoff <= 1.
Proof. split; vm_compute; discriminate. Qed.

Lemma least_step_nonneg : 0 <= least_step.
Proof. apply Qlt_le_weak. apply pow2_pos. Qed.

(** ** Negative order sizes *)





(** The slack in the example is a few units in the last place of the
    price. *)
Remark negative_order_slack_example :
  negative_order_slack (dbl (1001 # 10)) (-3) 100 < 1 # 10 ^ 13.
Proof. vm_compute. reflexivity. Qed.

(** ** Whole orders on books of whole volumes *)

Lemma one_level_book_snapshot : snapshot one_level_book.
Proof.
  repeat (constructor; [split; vm_compute; (reflexivity || discriminate)|]).
  constructor.
Defined.

Lemma one_level_book_whole : whole_volumes one_level_book.
Proof. repeat constructor. exists 1000%Z. reflexivity. Defined.

Lemma one_level_book_in_range : no_overflow one_level_book 100.
Proof.
  split; [repeat constructor; vm_compute; discriminate|].
  split; [vm_compute; discriminate|reflexivity].
Defined.

Lemma share_count_80 : share_count 80.
Proof. exists 80%Z. split; reflexivity. Defined.




(** The slack in the example is about a tenth of a trillionth, a few units
    in the last place of the prices. *)
Remark rounding_slack_example :
  7 # 10 ^ 14 < rounding_slack one_level_book 80 100
                + rounding_slack one_level_book 90 100 /\
  rounding_slack one_level_book 80 100 + rounding_slack one_level_book 90 100
  < 2 # 10 ^ 13.
Proof. split; vm_compute; reflexivity. Qed.

(** ** Whole orders against the depth of the book *)

(** X15.  On a float64 snapshot with whole volumes, magnitudes in range,
    a whole order size below [2^53] that the book can fill returns a number within
    the rounding slack of the brute-force slippage: the remaining quantity
    is tracked without rounding, so the order is seen as filled. *)
Theorem whole_order_within_depth_is_filled
    (book : order_book) (x mid_price : Q) :
  snapshot book -> whole_volumes book -> no_overflow book mid_price ->
  share_count x -> 0 < x -> x <= total_volume book ->
  exists s,
    compute_slippage64 book x mid_price = Finite s /\
    Qabs (s - brute_force_slippage book x mid_price)
    <= rounding_slack book x mid_price.
Proof.
  intros Hbook Hwhole _ Hc Hx Hdepth.
  unfold compute_slippage64, rounding_slack, brute_force_slippage.
  apply (compute_slippage_fl_filled round64 unit_roundoff least_step);
    try assumption.
  - exact round64_proper.
  - exact round64_error.
  - exact round64_int.
  - apply unit_roundoff_range.
  - apply unit_roundoff_range.
  - exact least_step_nonneg.
Qed.

Lemma whole_order_within_depth_is_filled_witness :
  snapshot one_level_book /\ whole_volumes one_level_book /\
  no_overflow one_level_book 100 /\ share_count 80 /\ 0 < 80 /\
  80 <= total_volume one_level_book /\
  exists s,
    compute_slippage64 one_level_book 80 100 = Finite s /\
    Qabs (s - brute_force_slippage one_level_book 80 100)
    <= rounding_slack one_level_book 80 100.
Proof.
  assert (Hx : 0 < 80) by reflexivity.
  assert (Hd : 80 <= total_volume one_level_book) by (vm_compute; discriminate).
  split; [exact one_level_book_snapshot|].
  split; [exact one_level_book_whole|].
  split; [exact one_level_book_in_range|]. split; [exact share_count_80|].
  split; [exact Hx|]. split; [exact Hd|].
  exact (whole_order_within_depth_is_filled one_level_book 80 100
           one_level_book_snapshot one_level_book_whole
           one_level_book_in_range share_count_80 Hx Hd).
Defined.

(** X16.  On a float64 snapshot with whole volumes, a whole order size
    below [2^53] that exceeds the total volume returns nan. *)
Theorem whole_order_beyond_depth_is_nan
    (book : order_book) (x mid_price : Q) :
  snapshot book -> whole_volumes book ->
  share_count x -> 0 < x -> total_volume book < x ->
  compute_slippage64 book x mid_price = NotANumber.
Proof.
  intros Hbook Hwhole Hc Hx Hdepth.
  unfold compute_slippage64.
  apply (compute_slippage_fl_short round64 unit_roundoff least_step);
    try assumption.
  - exact round64_proper.
  - exact round64_error.
  - exact round64_int.
  - apply unit_roundoff_range.
  - apply unit_roundoff_range.
  - exact least_step_nonneg.
Qed.

Lemma share_count_1010 : share_count 1010.
Proof. exists 1010%Z. split; reflexivity. Defined.

Lemma whole_order_beyond_depth_is_nan_witness :
  snapshot one_level_book /\ whole_volumes one_level_book /\
  share_count 1010 /\ 0 < 1010 /\ total_volume one_level_book < 1010 /\
  compute_slippage64 one_level_book 1010 100 = NotANumber.
Proof.
  assert (Hx : 0 < 1010) by reflexivity.
  assert (Hd : total_volume one_level_book < 1010) by reflexivity.
  split; [exact one_level_book_snapshot|].
  split; [exact one_level_book_whole|]. split; [exact share_count_1010|].
  split; [exact Hx|]. split; [exact Hd|].
  exact (whole_order_beyond_depth_is_nan one_level_book 1010 100
           one_level_book_snapshot one_level_book_whole
           share_count_1010 Hx Hd).
Defined.
